(** * LanguageSystem: the language selector and its fallback chain

    A shallow embedding of [src/features/language/LanguageEnum.cpp] and
    [src/features/language/LanguageController.cpp].

    [QString] is modelled as [string], [QStringList] as [list string],
    the [QSettings] store as a finite map from keys to values.  The
    controller's methods are written in a small state-and-output monad:
    the state is the controller object together with the external
    stores it touches, the output is the chronological list of
    observable effects (signals, log lines, settings accesses, locale
    queries, translator operations). *)

From Stdlib Require Import String Ascii List Bool.
From stdpp Require Import base decidable option list strings gmap.
Import ListNotations.

Local Open Scope string_scope.
Local Open Scope list_scope.

(** ** The Qt string operations the sources use *)

Module Qt.

(** [QString::left(n)]: the [n] leftmost characters, the whole string
    when it is shorter. *)
Definition left (n : nat) (s : string) : string := String.substring 0 n s.

(** [QString::isEmpty]. *)
Definition isEmpty (s : string) : bool :=
  match s with
  | EmptyString => true
  | String _ _ => false
  end.

(** [QStringList::join(sep)]. *)
Fixpoint join (sep : string) (l : list string) : string :=
  match l with
  | [] => ""
  | [x] => x
  | x :: rest => String.append x (String.append sep (join sep rest))
  end.

(** [QStringList::contains(s)], case sensitive. *)
Definition contains (l : list string) (s : string) : bool :=
  existsb (String.eqb s) l.

End Qt.

(** ** LanguageEnum.h / LanguageEnum.cpp *)

Module Language.

Inductive Code : Type := English | Spanish | French.

Definition toString (language : Code) : string :=
  match language with
  | English => "en"
  | Spanish => "es"
  | French => "fr"
  end.

Definition fromString (languageCode : string) : Code :=
  if String.eqb languageCode "en" then English
  else if String.eqb languageCode "es" then Spanish
  else if String.eqb languageCode "fr" then French
  else English.

Definition getAllCodes : list string := [] ++ ["en"] ++ ["es"] ++ ["fr"].

Definition isSupported (languageCode : string) : bool :=
  String.eqb languageCode "en" || String.eqb languageCode "es"
  || String.eqb languageCode "fr".

End Language.

(** ** The platform services the controller calls

    [QLocale::system().name()] and the bundled translation resources
    are fixed for the life of the process: [localeName] is the locale
    identifier, [qmLoads path] tells whether [QTranslator::load] finds a
    translation at the resource path. *)

Record Platform : Type := {
  localeName : string;
  qmLoads : string -> bool
}.

(** ** Observable effects *)

(** The three signals of [LanguageController.h]. *)
Inductive Signal : Type :=
| currentLanguageChanged
| languageChanged
| languageLoadFailed (language reason : string).

(** [qDebug], [qWarning], [qCritical]. *)
Inductive Severity : Type := Debug | Warning | Critical.

Inductive Effect : Type :=
| Emit (s : Signal)
| Log (sev : Severity) (parts : list string)
| SettingsValue (key : string)
| SettingsSetValue (key value : string)
| LocaleSystem
| RemoveTranslator
| TranslatorLoad (resourcePath : string) (ok : bool)
| InstallTranslator.

(** ** State: the controller's members and the stores it touches

    [m_translator] is the resource path the [QTranslator] object's
    contents were loaded for (none for an empty translator),
    [installed] whether that object is in the application's translator
    list, [settings] the [QSettings] store. *)

Record World : Type := {
  m_currentLanguage : string;
  m_availableLanguages : list string;
  m_translator : option string;
  installed : bool;
  settings : gmap string string
}.

(** The resource currently attached to the application. *)
Definition attached (w : World) : option string :=
  if installed w then m_translator w else None.

(** ** The state-and-output monad *)

Record Run (A : Type) : Type := mkRun {
  result : A;
  world : World;
  effects : list Effect
}.
Arguments mkRun {A} _ _ _.
Arguments result {A} _.
Arguments world {A} _.
Arguments effects {A} _.

Definition M (A : Type) : Type := World -> Run A.

Definition ret {A : Type} (a : A) : M A := fun w => mkRun a w [].

Definition bind {A B : Type} (m : M A) (f : A -> M B) : M B :=
  fun w =>
    match m w with
    | mkRun a w' es =>
        match f a w' with
        | mkRun b w'' es' => mkRun b w'' (es ++ es')
        end
    end.

Notation "x <- c1 ;; c2" := (bind c1 (fun x => c2))
  (at level 100, c1 at next level, right associativity).
Notation "c1 ;; c2" := (bind c1 (fun _ => c2))
  (at level 100, right associativity).

(** [a && b] of C++ with an effectful right operand: [b] runs only when
    [a] holds. *)
Definition andThen (a : bool) (b : M bool) : M bool :=
  if a then b else ret false.

Definition emit (s : Signal) : M unit := fun w => mkRun tt w [Emit s].

Definition qLog (sev : Severity) (parts : list string) : M unit :=
  fun w => mkRun tt w [Log sev parts].

Definition get {A : Type} (field : World -> A) : M A :=
  fun w => mkRun (field w) w [].

Definition set_currentLanguage (language : string) : M unit :=
  fun w => mkRun tt
    {| m_currentLanguage := language;
       m_availableLanguages := m_availableLanguages w;
       m_translator := m_translator w;
       installed := installed w;
       settings := settings w |} [].

(** [m_availableLanguages << code]. *)
Definition append_availableLanguages (code : string) : M unit :=
  fun w => mkRun tt
    {| m_currentLanguage := m_currentLanguage w;
       m_availableLanguages := m_availableLanguages w ++ [code];
       m_translator := m_translator w;
       installed := installed w;
       settings := settings w |} [].

(** [QSettings::value(key).toString()]: the empty string for a key
    that is not stored. *)
Definition settings_value (key : string) : M string :=
  fun w => mkRun (default "" (settings w !! key)) w [SettingsValue key].

(** [QSettings::setValue(key, value)]. *)
Definition settings_setValue (key value : string) : M unit :=
  fun w => mkRun tt
    {| m_currentLanguage := m_currentLanguage w;
       m_availableLanguages := m_availableLanguages w;
       m_translator := m_translator w;
       installed := installed w;
       settings := <[key := value]> (settings w) |}
    [SettingsSetValue key value].

(** [QLocale::system().name()]. *)
Definition locale_system_name (P : Platform) : M string :=
  fun w => mkRun (localeName P) w [LocaleSystem].

(** [QCoreApplication::removeTranslator(m_translator)]. *)
Definition removeTranslator : M unit :=
  fun w => mkRun tt
    {| m_currentLanguage := m_currentLanguage w;
       m_availableLanguages := m_availableLanguages w;
       m_translator := m_translator w;
       installed := false;
       settings := settings w |} [RemoveTranslator].

(** [m_translator->load(resourcePath)]: the previous contents are
    discarded, the new ones are kept when the load succeeds. *)
Definition translator_load (P : Platform) (resourcePath : string) : M bool :=
  fun w =>
    let ok := qmLoads P resourcePath in
    mkRun ok
      {| m_currentLanguage := m_currentLanguage w;
         m_availableLanguages := m_availableLanguages w;
         m_translator := if ok then Some resourcePath else None;
         installed := installed w;
         settings := settings w |} [TranslatorLoad resourcePath ok].

(** [QCoreApplication::installTranslator(m_translator)]. *)
Definition installTranslator : M unit :=
  fun w => mkRun tt
    {| m_currentLanguage := m_currentLanguage w;
       m_availableLanguages := m_availableLanguages w;
       m_translator := m_translator w;
       installed := true;
       settings := settings w |} [InstallTranslator].

(** ** LanguageController.cpp *)

(** [QString(":/translations/app_%1.qm").arg(language)]. *)
Definition resourcePath (language : string) : string :=
  String.append ":/translations/app_" (String.append language ".qm").

Definition tryLoadLanguage (P : Platform) (language : string) : M bool :=
  removeTranslator ;;
  ok <- translator_load P (resourcePath language) ;;
  if ok then
    installTranslator ;;
    qLog Debug ["Successfully loaded language:"; language; "from";
                resourcePath language] ;;
    ret true
  else
    qLog Debug ["Failed to load language file:"; resourcePath language] ;;
    ret false.

Definition loadLanguage (P : Platform) (language : string) : M unit :=
  loaded <- tryLoadLanguage P language ;;
  if loaded then ret tt
  else
    name <- locale_system_name P ;;
    let systemLang := Qt.left 2 name in
    viaSystem <- andThen (negb (String.eqb language systemLang))
                         (tryLoadLanguage P systemLang) ;;
    if viaSystem then
      qLog Warning ["Requested language"; language;
                    "failed, using system language"; systemLang] ;;
      set_currentLanguage systemLang ;;
      emit currentLanguageChanged
    else
      viaEnglish <- andThen (negb (String.eqb language "en"))
                            (tryLoadLanguage P "en") ;;
      if viaEnglish then
        qLog Warning ["Language"; language;
                      "failed, falling back to English"] ;;
        set_currentLanguage "en" ;;
        emit currentLanguageChanged
      else
        qLog Critical ["All language fallbacks failed for:"; language].

Definition initializeLanguage (P : Platform) : M string :=
  savedLanguage <- settings_value "language" ;;
  available <- get m_availableLanguages ;;
  if negb (Qt.isEmpty savedLanguage) && Qt.contains available savedLanguage
  then
    qLog Debug ["Restored saved language:"; savedLanguage] ;;
    ret savedLanguage
  else
    name <- locale_system_name P ;;
    let systemLocale := Qt.left 2 name in
    if Qt.contains available systemLocale then
      qLog Debug ["Using system language:"; systemLocale] ;;
      ret systemLocale
    else
      qLog Debug ["Using default language: en"] ;;
      ret "en".

Definition setCurrentLanguage (P : Platform) (language : string) : M unit :=
  if Qt.isEmpty language then
    emit (languageLoadFailed language "Empty language code provided")
  else
    available <- get m_availableLanguages ;;
    if negb (Qt.contains available language) then
      let availableList := Qt.join ", " available in
      emit (languageLoadFailed language
              (String.append "Unsupported language. Available languages: "
                             availableList))
    else
      current <- get m_currentLanguage ;;
      if String.eqb current language then
        qLog Debug ["Language"; language; "is already current"]
      else
        set_currentLanguage language ;;
        settings_setValue "language" language ;;
        loadLanguage P language ;;
        emit currentLanguageChanged ;;
        emit languageChanged.

(** The members before the constructor body runs: default-constructed
    strings and list, a fresh [QTranslator] that is not installed; [st]
    is what the settings store holds when the process starts. *)
Definition pristine (st : gmap string string) : World :=
  {| m_currentLanguage := "";
     m_availableLanguages := [];
     m_translator := None;
     installed := false;
     settings := st |}.

(** The constructor body up to [m_currentLanguage = initializeLanguage()]. *)
Definition constructor_resolve (P : Platform) : M unit :=
  append_availableLanguages "en" ;;
  append_availableLanguages "es" ;;
  append_availableLanguages "fr" ;;
  initial <- initializeLanguage P ;;
  set_currentLanguage initial.

(** The whole constructor body. *)
Definition constructor (P : Platform) : M unit :=
  constructor_resolve P ;;
  current <- get m_currentLanguage ;;
  loadLanguage P current.

(** ** Reading a run *)

Definition signals (es : list Effect) : list Signal :=
  omap (fun e => match e with Emit s => Some s | _ => None end) es.

Definition loadAttempts (es : list Effect) : list string :=
  omap (fun e => match e with TranslatorLoad p _ => Some p | _ => None end) es.

Definition settingsWrites (es : list Effect) : list (string * string) :=
  omap (fun e => match e with
                 | SettingsSetValue k v => Some (k, v)
                 | _ => None
                 end) es.

Definition localeQueries (es : list Effect) : nat :=
  length (List.filter (fun e => match e with LocaleSystem => true | _ => false end) es).

Definition signal_eqb (a b : Signal) : bool :=
  match a, b with
  | currentLanguageChanged, currentLanguageChanged => true
  | languageChanged, languageChanged => true
  | languageLoadFailed l r, languageLoadFailed l' r' =>
      String.eqb l l' && String.eqb r r'
  | _, _ => false
  end.

(** How many times signal [s] occurs in a run. *)
Definition emitted (s : Signal) (es : list Effect) : nat :=
  length (List.filter (signal_eqb s) (signals es)).

(** The supported set. *)
Definition supported : list string := ["en"; "es"; "fr"].

(** ** Reachable states: construction, then any sequence of
    [setCurrentLanguage] calls *)

Inductive reachable (P : Platform) : World -> Prop :=
| reachable_constructor (st : gmap string string) :
    reachable P (world (constructor P (pristine st)))
| reachable_setCurrentLanguage (w : World) (language : string) :
    reachable P w ->
    reachable P (world (setCurrentLanguage P language w)).

(** A saved preference is used when it is non-empty and available. *)
Definition usable (available : list string) (savedLanguage : string) : bool :=
  negb (Qt.isEmpty savedLanguage) && Qt.contains available savedLanguage.

(** The three conditions of a request that passes validation and changes
    the language. *)
Definition accepted (language : string) (w : World) : Prop :=
  Qt.isEmpty language = false
  /\ Qt.contains (m_availableLanguages w) language = true
  /\ String.eqb (m_currentLanguage w) language = false.

(** The state in which an accepted request enters the load algorithm. *)
Definition tentative (language : string) (w : World) : World :=
  {| m_currentLanguage := language;
     m_availableLanguages := m_availableLanguages w;
     m_translator := m_translator w;
     installed := installed w;
     settings := <["language" := language]> (settings w) |}.

(** Whether the load algorithm ends on a fallback: the candidate's
    resource does not load and the locale's subtag (when it differs) or
    English (when the candidate is not English) does. *)
Definition fallbackTaken (P : Platform) (language : string) : bool :=
  let systemLang := Qt.left 2 (localeName P) in
  negb (qmLoads P (resourcePath language))
  && ((negb (String.eqb language systemLang)
       && qmLoads P (resourcePath systemLang))
      || (negb (String.eqb language "en") && qmLoads P (resourcePath "en"))).

(** ** Concrete platforms used in the examples *)

(** A resource bundle holding a translation for exactly the listed codes. *)
Definition bundle (codes : list string) : string -> bool :=
  fun path => existsb (fun c => String.eqb path (resourcePath c)) codes.

(** French desktop, all three translations bundled. *)
Definition desktop_fr : Platform :=
  {| localeName := "fr_FR"; qmLoads := bundle ["en"; "es"; "fr"] |}.

(** French desktop, the Spanish translation is missing from the bundle. *)
Definition desktop_fr_no_es : Platform :=
  {| localeName := "fr_FR"; qmLoads := bundle ["en"; "fr"] |}.

(** German desktop; the bundle ships a German translation that is not in
    the controller's list, and the Spanish one is missing. *)
Definition desktop_de : Platform :=
  {| localeName := "de_DE"; qmLoads := bundle ["en"; "fr"; "de"] |}.

(** German desktop with nothing loadable. *)
Definition desktop_de_empty : Platform :=
  {| localeName := "de_DE"; qmLoads := bundle [] |}.

(** The settings store of a first start, and one with a saved choice. *)
Definition no_settings : gmap string string := ∅.
Definition saved (code : string) : gmap string string := {[ "language" := code ]}.

(** ** The read accessors of the controller *)

(** [LanguageController::currentLanguage() const]. *)
Definition currentLanguage : M string := get m_currentLanguage.

(** [LanguageController::availableLanguages() const]. *)
Definition availableLanguages : M (list string) := get m_availableLanguages.

(** The keys a run reads from the settings store. *)
Definition settingsReads (es : list Effect) : list string :=
  omap (fun e => match e with SettingsValue k => Some k | _ => None end) es.

(** The translator object serves the current language: attached and
    holding that language's resource when the resource loads, empty and
    detached when it does not. *)
Definition servesCurrent (P : Platform) (w : World) : Prop :=
  let path := resourcePath (m_currentLanguage w) in
  m_translator w = (if qmLoads P path then Some path else None)
  /\ installed w = qmLoads P path.

(** * Properties *)

(** ** Facts about the string operations *)

Lemma isEmpty_true (s : string) : Qt.isEmpty s = true <-> s = "".
Proof. destruct s; simpl; split; congruence. Qed.

Lemma isEmpty_false (s : string) : Qt.isEmpty s = false <-> s <> "".
Proof. destruct s; simpl; split; congruence. Qed.

Lemma contains_In (l : list string) (s : string) :
  Qt.contains l s = true <-> In s l.
Proof.
  unfold Qt.contains. rewrite existsb_exists. split.
  - intros (y & Hy & E). apply String.eqb_eq in E. now subst.
  - intros H. exists s. split; [assumption | apply String.eqb_refl].
Qed.

Lemma contains_not_In (l : list string) (s : string) :
  Qt.contains l s = false <-> ~ In s l.
Proof.
  rewrite <- contains_In. destruct (Qt.contains l s); split; intros H;
    first [congruence | reflexivity | exfalso; now apply H].
Qed.

Lemma isSupported_cases (s : string) :
  Language.isSupported s = true <-> s = "en" \/ s = "es" \/ s = "fr".
Proof.
  unfold Language.isSupported. rewrite !orb_true_iff, !String.eqb_eq. tauto.
Qed.

Lemma fromString_unsupported (s : string) :
  Language.isSupported s = false -> Language.fromString s = Language.English.
Proof.
  unfold Language.isSupported, Language.fromString. rewrite !orb_false_iff.
  intros [[-> ->] ->]. reflexivity.
Qed.

(** The enumeration's list of codes is the controller's supported set. *)
Lemma getAllCodes_supported : Language.getAllCodes = supported.
Proof. reflexivity. Qed.

(** C9. Converting a code to its tag and back gives the code again; and
    converting a string to a code and back gives the string again
    exactly when the string is one of the supported tags (every other
    string, the empty one included, is read as English). *)
Theorem Language_code_string_roundtrip :
  (forall c : Language.Code, Language.fromString (Language.toString c) = c)
  /\ (forall s : string,
        Language.toString (Language.fromString s) = s
        <-> Language.isSupported s = true)
  /\ (forall s : string,
        Language.isSupported s = false ->
        Language.fromString s = Language.English).
Proof.
  split; [| split].
  - intros []; reflexivity.
  - intros s. split.
    + intros E. destruct (Language.isSupported s) eqn:Hs; [reflexivity |].
      rewrite (fromString_unsupported s Hs) in E. simpl in E. subst s.
      discriminate Hs.
    + intros Hs. apply isSupported_cases in Hs.
      destruct Hs as [-> | [-> | ->]]; reflexivity.
  - exact fromString_unsupported.
Qed.

(** ** Running the monadic code *)

(** Unfold the monad and the controller's primitive operations, keep the
    string operations and the platform folded. *)
Ltac run_prims :=
  cbv [bind ret andThen emit qLog get set_currentLanguage
       append_availableLanguages settings_value settings_setValue
       locale_system_name removeTranslator translator_load
       installTranslator];
  cbn [result world effects app negb andb
       m_currentLanguage m_availableLanguages m_translator installed
       settings].

(** Split on the condition of the outermost conditional that is still
    blocked. *)
Ltac split_if :=
  match goal with
  | |- context [if ?b then _ else _] =>
      lazymatch b with
      | context [if _ then _ else _] => fail
      | _ => destruct b eqn:?
      end
  end.

Ltac run_cases := run_prims; repeat (split_if; run_prims).

(** What one activation attempt does. *)
Lemma tryLoadLanguage_run (P : Platform) (language : string) (w : World) :
  tryLoadLanguage P language w =
  if qmLoads P (resourcePath language) then
    mkRun true
      {| m_currentLanguage := m_currentLanguage w;
         m_availableLanguages := m_availableLanguages w;
         m_translator := Some (resourcePath language);
         installed := true;
         settings := settings w |}
      [RemoveTranslator; TranslatorLoad (resourcePath language) true;
       InstallTranslator;
       Log Debug ["Successfully loaded language:"; language; "from";
                  resourcePath language]]
  else
    mkRun false
      {| m_currentLanguage := m_currentLanguage w;
         m_availableLanguages := m_availableLanguages w;
         m_translator := None;
         installed := false;
         settings := settings w |}
      [RemoveTranslator; TranslatorLoad (resourcePath language) false;
       Log Debug ["Failed to load language file:"; resourcePath language]].
Proof.
  unfold tryLoadLanguage. run_prims.
  destruct (qmLoads P (resourcePath language)); reflexivity.
Qed.

(** An attempt reports exactly whether the resource loads, and afterwards
    the attached resource is that one or none. *)
Lemma tryLoadLanguage_result (P : Platform) (language : string) (w : World) :
  let r := tryLoadLanguage P language w in
  result r = qmLoads P (resourcePath language)
  /\ attached (world r)
     = (if result r then Some (resourcePath language) else None)
  /\ loadAttempts (effects r) = [resourcePath language]
  /\ signals (effects r) = []
  /\ settingsWrites (effects r) = [].
Proof.
  cbn zeta. rewrite tryLoadLanguage_run.
  destruct (qmLoads P (resourcePath language)); repeat split; reflexivity.
Qed.

(** C2. The load algorithm as a decision table over what the bundle
    holds: the candidate's resource is tried first and nothing else when
    it loads; otherwise the resource of the locale's two-letter subtag is
    tried, only when the subtag differs from the candidate, and a success
    makes the subtag current with one [currentLanguageChanged]; otherwise
    the English resource is tried, only when the candidate is not "en",
    and a success makes "en" current with one [currentLanguageChanged];
    otherwise the current language is left alone and nothing is emitted.
    The attempts are listed in the order they happen. *)
Theorem loadLanguage_fallback_chain
    (P : Platform) (language : string) (w : World) :
  let r := loadLanguage P language w in
  let systemLang := Qt.left 2 (localeName P) in
  let loads c := qmLoads P (resourcePath c) in
  let viaSystem :=
    if String.eqb language systemLang then [] else [resourcePath systemLang] in
  let viaEnglish :=
    if String.eqb language "en" then [] else [resourcePath "en"] in
  if loads language then
    loadAttempts (effects r) = [resourcePath language]
    /\ m_currentLanguage (world r) = m_currentLanguage w
    /\ signals (effects r) = []
  else if negb (String.eqb language systemLang) && loads systemLang then
    loadAttempts (effects r) = [resourcePath language; resourcePath systemLang]
    /\ m_currentLanguage (world r) = systemLang
    /\ signals (effects r) = [currentLanguageChanged]
  else if negb (String.eqb language "en") && loads "en" then
    loadAttempts (effects r)
      = [resourcePath language] ++ viaSystem ++ [resourcePath "en"]
    /\ m_currentLanguage (world r) = "en"
    /\ signals (effects r) = [currentLanguageChanged]
  else
    loadAttempts (effects r) = [resourcePath language] ++ viaSystem ++ viaEnglish
    /\ m_currentLanguage (world r) = m_currentLanguage w
    /\ signals (effects r) = [].
Proof.
  cbn zeta. unfold loadLanguage.
  set (sys := Qt.left 2 (localeName P)).
  run_prims. rewrite !tryLoadLanguage_run. 
  destruct (qmLoads P (resourcePath language)) eqn:Hl; run_prims.
  { repeat split; reflexivity. }
  fold sys.
  destruct (String.eqb language sys) eqn:Hs; run_prims.
  - destruct (String.eqb language "en") eqn:He; run_prims.
    + repeat split; reflexivity.
    + rewrite !tryLoadLanguage_run. run_prims.
      destruct (qmLoads P (resourcePath "en")); repeat split; reflexivity.
  - rewrite !tryLoadLanguage_run. run_prims.
    destruct (qmLoads P (resourcePath sys)) eqn:Hsys; run_prims.
    + repeat split; reflexivity.
    + destruct (String.eqb language "en") eqn:He; run_prims.
      * repeat split; reflexivity.
      * rewrite !tryLoadLanguage_run. run_prims.
        destruct (qmLoads P (resourcePath "en")); repeat split; reflexivity.
Qed.

(** Case analysis of one run of the load algorithm. *)
Ltac loadLanguage_cases P language :=
  unfold loadLanguage; run_prims; rewrite ?tryLoadLanguage_run;
  destruct (qmLoads P (resourcePath language)) eqn:?; run_prims;
  [| destruct (String.eqb language (Qt.left 2 (localeName P))) eqn:?;
     run_prims; rewrite ?tryLoadLanguage_run;
     [| destruct (qmLoads P (resourcePath (Qt.left 2 (localeName P)))) eqn:?;
        run_prims ];
     try (destruct (String.eqb language "en") eqn:?;
          run_prims; rewrite ?tryLoadLanguage_run;
          [| destruct (qmLoads P (resourcePath "en")) eqn:?; run_prims ]) ].

(** What the load algorithm leaves alone, and what it can do to the
    current language. *)
Lemma loadLanguage_summary (P : Platform) (language : string) (w : World) :
  let r := loadLanguage P language w in
  let systemLang := Qt.left 2 (localeName P) in
  m_availableLanguages (world r) = m_availableLanguages w
  /\ settings (world r) = settings w
  /\ settingsWrites (effects r) = []
  /\ signals (effects r)
     = (if fallbackTaken P language then [currentLanguageChanged] else [])
  /\ (m_currentLanguage (world r) = m_currentLanguage w
      \/ (m_currentLanguage (world r) = systemLang
          /\ qmLoads P (resourcePath systemLang) = true)
      \/ m_currentLanguage (world r) = "en").
Proof.
  cbn zeta. unfold fallbackTaken.
  loadLanguage_cases P language;
    repeat match goal with H : _ = _ |- _ => rewrite ?H; clear H end;
    cbn [negb andb orb];
    repeat split; auto.
Qed.

(** ** Readings of a run distribute over concatenation *)

Lemma signals_app (es es' : list Effect) :
  signals (es ++ es') = signals es ++ signals es'.
Proof. unfold signals. apply omap_app. Qed.

Lemma loadAttempts_app (es es' : list Effect) :
  loadAttempts (es ++ es') = loadAttempts es ++ loadAttempts es'.
Proof. unfold loadAttempts. apply omap_app. Qed.

Lemma settingsWrites_app (es es' : list Effect) :
  settingsWrites (es ++ es') = settingsWrites es ++ settingsWrites es'.
Proof. unfold settingsWrites. apply omap_app. Qed.

Lemma emitted_signals (s : Signal) (es : list Effect) (l : list Signal) :
  signals es = l -> emitted s es = length (List.filter (signal_eqb s) l).
Proof. intros <-. reflexivity. Qed.

(** ** [setCurrentLanguage], path by path *)

Lemma setCurrentLanguage_accepted
    (P : Platform) (language : string) (w : World) :
  accepted language w ->
  let inner := loadLanguage P language (tentative language w) in
  setCurrentLanguage P language w =
  mkRun tt (world inner)
    (SettingsSetValue "language" language
       :: effects inner ++ [Emit currentLanguageChanged; Emit languageChanged]).
Proof.
  intros (He & Hc & Hn). cbn zeta. unfold setCurrentLanguage.
  rewrite He. run_prims. rewrite Hc. run_prims. rewrite Hn. run_prims.
  unfold tentative. destruct (loadLanguage P language _) as [[] w' es].
  cbn [result world effects]. reflexivity.
Qed.

Lemma setCurrentLanguage_empty (P : Platform) (language : string) (w : World) :
  Qt.isEmpty language = true ->
  setCurrentLanguage P language w =
  mkRun tt w [Emit (languageLoadFailed language "Empty language code provided")].
Proof. intros He. unfold setCurrentLanguage. rewrite He. reflexivity. Qed.

Lemma setCurrentLanguage_unsupported
    (P : Platform) (language : string) (w : World) :
  Qt.isEmpty language = false ->
  Qt.contains (m_availableLanguages w) language = false ->
  setCurrentLanguage P language w =
  mkRun tt w
    [Emit (languageLoadFailed language
             (String.append "Unsupported language. Available languages: "
                (Qt.join ", " (m_availableLanguages w))))].
Proof.
  intros He Hc. unfold setCurrentLanguage. rewrite He. run_prims.
  rewrite Hc. reflexivity.
Qed.

Lemma setCurrentLanguage_already_current
    (P : Platform) (language : string) (w : World) :
  Qt.isEmpty language = false ->
  Qt.contains (m_availableLanguages w) language = true ->
  String.eqb (m_currentLanguage w) language = true ->
  setCurrentLanguage P language w =
  mkRun tt w [Log Debug ["Language"; language; "is already current"]].
Proof.
  intros He Hc Hn. unfold setCurrentLanguage. rewrite He. run_prims.
  rewrite Hc. run_prims. rewrite Hn. reflexivity.
Qed.

(** Every call lands on one of the four paths. *)
Lemma setCurrentLanguage_paths (P : Platform) (language : string) (w : World) :
  Qt.isEmpty language = true
  \/ (Qt.isEmpty language = false
      /\ Qt.contains (m_availableLanguages w) language = false)
  \/ (Qt.isEmpty language = false
      /\ Qt.contains (m_availableLanguages w) language = true
      /\ String.eqb (m_currentLanguage w) language = true)
  \/ accepted language w.
Proof.
  unfold accepted.
  destruct (Qt.isEmpty language); [now left | right].
  destruct (Qt.contains (m_availableLanguages w) language); [right | now left].
  destruct (String.eqb (m_currentLanguage w) language); [now left | now right].
Qed.

(** ** Reachable states keep the list of available languages *)

(** The constructor ends with the load algorithm, run for the language
    startup resolution has made current. *)
Lemma constructor_run (P : Platform) (w : World) :
  let w1 := world (constructor_resolve P w) in
  world (constructor P w) = world (loadLanguage P (m_currentLanguage w1) w1).
Proof.
  cbn zeta. unfold constructor, bind, get.
  destruct (constructor_resolve P w) as [[] w1 es]. cbn [world result].
  destruct (loadLanguage P (m_currentLanguage w1) w1) as [[] w2 es2].
  reflexivity.
Qed.

Lemma constructor_resolve_available (P : Platform) (st : gmap string string) :
  m_availableLanguages (world (constructor_resolve P (pristine st))) = supported.
Proof.
  unfold constructor_resolve, initializeLanguage, pristine.
  run_cases; reflexivity.
Qed.

Lemma setCurrentLanguage_available
    (P : Platform) (language : string) (w : World) :
  m_availableLanguages (world (setCurrentLanguage P language w))
  = m_availableLanguages w.
Proof.
  destruct (setCurrentLanguage_paths P language w)
    as [H | [[H1 H2] | [(H1 & H2 & H3) | H]]].
  - now rewrite setCurrentLanguage_empty.
  - now rewrite setCurrentLanguage_unsupported.
  - now rewrite setCurrentLanguage_already_current.
  - rewrite (setCurrentLanguage_accepted P language w H). cbn [world].
    now destruct (loadLanguage_summary P language (tentative language w))
      as (-> & _).
Qed.

Lemma reachable_available (P : Platform) (w : World) :
  reachable P w -> m_availableLanguages w = supported.
Proof.
  induction 1 as [st | w language Hw IH].
  - rewrite constructor_run.
    destruct (loadLanguage_summary P
      (m_currentLanguage (world (constructor_resolve P (pristine st))))
      (world (constructor_resolve P (pristine st)))) as (-> & _).
    apply constructor_resolve_available.
  - now rewrite setCurrentLanguage_available.
Qed.

(** A request that is non-empty, supported and different from the current
    language passes the three tests of [setCurrentLanguage] in every
    reachable state. *)
Lemma reachable_accepted (P : Platform) (w : World) (language : string) :
  reachable P w ->
  language <> "" -> In language supported -> m_currentLanguage w <> language ->
  accepted language w.
Proof.
  intros Hw He Hs Hn. repeat split.
  - now apply isEmpty_false.
  - rewrite (reachable_available P w Hw). now apply contains_In.
  - now apply String.eqb_neq.
Qed.

(** C4 (amended). A validated, state-changing request emits exactly one
    [languageChanged]; [setCurrentLanguage] itself emits exactly one
    [currentLanguageChanged] after the load algorithm, and the load
    algorithm has emitted one more before it when it ended on a fallback:
    one [currentLanguageChanged] in all when the requested resource loads
    or every attempt fails, two when a fallback resource loads. *)
Theorem setCurrentLanguage_notifications
    (P : Platform) (w : World) (language : string) :
  reachable P w ->
  language <> "" -> In language supported -> m_currentLanguage w <> language ->
  let r := setCurrentLanguage P language w in
  signals (effects r)
    = (if fallbackTaken P language then [currentLanguageChanged] else [])
      ++ [currentLanguageChanged; languageChanged]
  /\ emitted languageChanged (effects r) = 1
  /\ emitted currentLanguageChanged (effects r)
     = (if fallbackTaken P language then 2 else 1).
Proof.
  intros Hw He Hs Hn. cbn zeta.
  rewrite (setCurrentLanguage_accepted P language w
             (reachable_accepted P w language Hw He Hs Hn)).
  cbn [effects].
  destruct (loadLanguage_summary P language (tentative language w))
    as (_ & _ & _ & Hsig & _).
  assert (E : signals
    (SettingsSetValue "language" language
       :: effects (loadLanguage P language (tentative language w))
          ++ [Emit currentLanguageChanged; Emit languageChanged])
    = (if fallbackTaken P language then [currentLanguageChanged] else [])
      ++ [currentLanguageChanged; languageChanged]).
  { change (SettingsSetValue "language" language :: ?l)
      with ([SettingsSetValue "language" language] ++ l).
    rewrite !signals_app, Hsig. reflexivity. }
  split; [exact E |].
  split; rewrite (emitted_signals _ _ _ E);
    destruct (fallbackTaken P language); reflexivity.
Qed.

(** C8. A validated, state-changing request writes the key "language"
    exactly once, with the requested code, as its first effect: the load
    algorithm starts in a state whose store already holds the request,
    writes nothing itself, and whatever it does to the current language
    the store holds the request when the call returns. *)
Theorem setCurrentLanguage_persists_request
    (P : Platform) (w : World) (language : string) :
  reachable P w ->
  language <> "" -> In language supported -> m_currentLanguage w <> language ->
  let r := setCurrentLanguage P language w in
  let inner := loadLanguage P language (tentative language w) in
  settingsWrites (effects r) = [("language", language)]
  /\ effects r
     = SettingsSetValue "language" language
         :: effects inner ++ [Emit currentLanguageChanged; Emit languageChanged]
  /\ settings (tentative language w) !! "language" = Some language
  /\ settingsWrites (effects inner) = []
  /\ world r = world inner
  /\ settings (world r) = <["language" := language]> (settings w)
  /\ settings (world r) !! "language" = Some language.
Proof.
  intros Hw He Hs Hn. cbn zeta.
  rewrite (setCurrentLanguage_accepted P language w
             (reachable_accepted P w language Hw He Hs Hn)).
  cbn [effects world].
  destruct (loadLanguage_summary P language (tentative language w))
    as (_ & Hst & Hwr & _).
  repeat split.
  - change (SettingsSetValue "language" language :: ?l)
      with ([SettingsSetValue "language" language] ++ l).
    rewrite !settingsWrites_app, Hwr. reflexivity.
  - cbn [tentative settings]. apply lookup_insert_eq.
  - exact Hwr.
  - rewrite Hst. reflexivity.
  - rewrite Hst. cbn [tentative settings]. apply lookup_insert_eq.
Qed.

(** C5. In a reachable state an empty or unsupported request changes
    nothing in the state, and its only effect is one [languageLoadFailed]
    carrying the request and a reason: no resource is tried, nothing is
    written; for an unsupported non-empty request the reason lists
    "en, es, fr". *)
Theorem setCurrentLanguage_rejects_invalid
    (P : Platform) (w : World) (language : string) :
  reachable P w ->
  language = "" \/ ~ In language supported ->
  let r := setCurrentLanguage P language w in
  let reason :=
    if Qt.isEmpty language then "Empty language code provided"
    else "Unsupported language. Available languages: en, es, fr" in
  world r = w
  /\ m_currentLanguage (world r) = m_currentLanguage w
  /\ effects r = [Emit (languageLoadFailed language reason)]
  /\ signals (effects r) = [languageLoadFailed language reason]
  /\ loadAttempts (effects r) = []
  /\ settingsWrites (effects r) = [].
Proof.
  intros Hw Hbad. cbn zeta.
  destruct (Qt.isEmpty language) eqn:He.
  - rewrite (setCurrentLanguage_empty P language w He).
    repeat split; reflexivity.
  - assert (Hc : Qt.contains (m_availableLanguages w) language = false).
    { rewrite (reachable_available P w Hw). apply contains_not_In.
      destruct Hbad as [-> | H]; [discriminate He | exact H]. }
    rewrite (setCurrentLanguage_unsupported P language w He Hc).
    rewrite (reachable_available P w Hw).
    repeat split; reflexivity.
Qed.

(** C10. A request that is empty, unsupported or equal to the current
    language performs no write to the settings store, and the store is
    the same after the call. *)
Theorem setCurrentLanguage_no_write_unless_accepted
    (P : Platform) (w : World) (language : string) :
  reachable P w ->
  language = "" \/ ~ In language supported \/ language = m_currentLanguage w ->
  let r := setCurrentLanguage P language w in
  settingsWrites (effects r) = [] /\ settings (world r) = settings w.
Proof.
  intros Hw Hcase. cbn zeta.
  destruct (setCurrentLanguage_paths P language w)
    as [H | [[H1 H2] | [(H1 & H2 & H3) | (H1 & H2 & H3)]]].
  - rewrite setCurrentLanguage_empty by assumption. split; reflexivity.
  - rewrite setCurrentLanguage_unsupported by assumption. split; reflexivity.
  - rewrite setCurrentLanguage_already_current by assumption.
    split; reflexivity.
  - exfalso. destruct Hcase as [-> | [Hu | ->]].
    + discriminate H1.
    + apply Hu. rewrite <- (reachable_available P w Hw).
      now apply contains_In.
    + rewrite String.eqb_refl in H3. discriminate H3.
Qed.

(** ** Total failure of the chain *)

Lemma loadLanguage_all_fail (P : Platform) (language : string) (w : World) :
  qmLoads P (resourcePath language) = false ->
  qmLoads P (resourcePath (Qt.left 2 (localeName P))) = false ->
  qmLoads P (resourcePath "en") = false ->
  let r := loadLanguage P language w in
  world r = {| m_currentLanguage := m_currentLanguage w;
               m_availableLanguages := m_availableLanguages w;
               m_translator := None;
               installed := false;
               settings := settings w |}
  /\ signals (effects r) = []
  /\ last (effects r)
     = Some (Log Critical ["All language fallbacks failed for:"; language]).
Proof.
  intros Hl Hs He. cbn zeta.
  loadLanguage_cases P language; try congruence; repeat split; reflexivity.
Qed.

(** C6. When the candidate's, the locale subtag's and the English
    resource all fail to load, the load algorithm returns normally, does
    not touch the current language (so it is still the candidate, which
    is what both callers made current before the call), leaves no
    resource attached, emits no signal, and ends on a critical log
    line. *)
Theorem loadLanguage_total_failure
    (P : Platform) (language : string) (w : World) :
  qmLoads P (resourcePath language) = false ->
  qmLoads P (resourcePath (Qt.left 2 (localeName P))) = false ->
  qmLoads P (resourcePath "en") = false ->
  let r := loadLanguage P language w in
  result r = tt
  /\ m_currentLanguage (world r) = m_currentLanguage w
  /\ (m_currentLanguage w = language -> m_currentLanguage (world r) = language)
  /\ attached (world r) = None
  /\ signals (effects r) = []
  /\ last (effects r)
     = Some (Log Critical ["All language fallbacks failed for:"; language]).
Proof.
  intros Hl Hs He. cbn zeta.
  destruct (loadLanguage_all_fail P language w Hl Hs He) as (Hw & Hsig & Hlog).
  rewrite Hw. cbn [m_currentLanguage]. split; [| split; [| split; [| split]]].
  - now destruct (result (loadLanguage P language w)).
  - reflexivity.
  - intros Hcur. exact Hcur.
  - reflexivity.
  - split; assumption.
Qed.

(** The same failure seen from [setCurrentLanguage]: the request stays
    the current language and only the caller's pair of signals is
    emitted. *)
Lemma setCurrentLanguage_total_failure
    (P : Platform) (w : World) (language : string) :
  accepted language w ->
  qmLoads P (resourcePath language) = false ->
  qmLoads P (resourcePath (Qt.left 2 (localeName P))) = false ->
  qmLoads P (resourcePath "en") = false ->
  let r := setCurrentLanguage P language w in
  m_currentLanguage (world r) = language
  /\ attached (world r) = None
  /\ signals (effects r) = [currentLanguageChanged; languageChanged].
Proof.
  intros Ha Hl Hs He. cbn zeta.
  rewrite (setCurrentLanguage_accepted P language w Ha). cbn [world effects].
  destruct (loadLanguage_all_fail P language (tentative language w) Hl Hs He)
    as (Hw & Hsig & _).
  rewrite Hw. repeat split.
  change (SettingsSetValue "language" language :: ?l)
    with ([SettingsSetValue "language" language] ++ l).
  rewrite !signals_app, Hsig. reflexivity.
Qed.

(** ** Startup resolution *)

Lemma initializeLanguage_run (P : Platform) (w : World) :
  let savedLanguage := default "" (settings w !! "language") in
  let systemLocale := Qt.left 2 (localeName P) in
  let r := initializeLanguage P w in
  world r = w
  /\ result r
     = (if usable (m_availableLanguages w) savedLanguage then savedLanguage
        else if Qt.contains (m_availableLanguages w) systemLocale
             then systemLocale
             else "en")
  /\ localeQueries (effects r)
     = (if usable (m_availableLanguages w) savedLanguage then 0 else 1).
Proof.
  cbn zeta. unfold initializeLanguage, usable. run_prims.
  destruct (negb (Qt.isEmpty (default "" (settings w !! "language")))
            && Qt.contains (m_availableLanguages w)
                 (default "" (settings w !! "language"))); run_prims.
  - repeat split; reflexivity.
  - destruct (Qt.contains (m_availableLanguages w) (Qt.left 2 (localeName P)));
      run_prims; repeat split; reflexivity.
Qed.

Lemma constructor_resolve_run (P : Platform) (st : gmap string string) :
  let w := {| m_currentLanguage := "";
              m_availableLanguages := supported;
              m_translator := None;
              installed := false;
              settings := st |} in
  world (constructor_resolve P (pristine st))
  = {| m_currentLanguage := result (initializeLanguage P w);
       m_availableLanguages := supported;
       m_translator := None;
       installed := false;
       settings := st |}.
Proof.
  cbn zeta. unfold constructor_resolve, pristine, supported. run_prims.
  match goal with
  | |- context [initializeLanguage P ?w0] =>
      destruct (initializeLanguage_run P w0) as (Hw & _);
      destruct (initializeLanguage P w0) as [initial w' es]
  end.
  cbn [world result] in *. subst w'. reflexivity.
Qed.

(** C3. Startup resolution, run with the list of available languages the
    constructor has just filled in: a saved preference that is non-empty
    and supported is returned and the locale is not queried; otherwise
    the first two characters of the locale name are returned when they
    are a supported code; otherwise "en".  The constructor makes the
    returned code the initial current language.  With nothing saved and
    the locale "de_DE" the result is "en". *)
Theorem initializeLanguage_resolution (P : Platform) (w : World) :
  m_availableLanguages w = supported ->
  let savedLanguage := default "" (settings w !! "language") in
  let systemLocale := Qt.left 2 (localeName P) in
  let r := initializeLanguage P w in
  (if negb (Qt.isEmpty savedLanguage) && Qt.contains supported savedLanguage
   then result r = savedLanguage /\ localeQueries (effects r) = 0
   else if Qt.contains supported systemLocale
        then result r = systemLocale
        else result r = "en")
  /\ m_currentLanguage (world (constructor_resolve P (pristine (settings w))))
     = result r
  /\ (settings w !! "language" = None -> localeName P = "de_DE" ->
      result r = "en").
Proof.
  intros Havail. cbn zeta.
  destruct (initializeLanguage_run P w) as (_ & Hres & Hq).
  cbn zeta in Hres, Hq. unfold usable in Hres, Hq. rewrite Havail in Hres, Hq.
  split; [| split].
  - destruct (negb (Qt.isEmpty (default "" (settings w !! "language")))
              && Qt.contains supported (default "" (settings w !! "language"))).
    + now split.
    + destruct (Qt.contains supported (Qt.left 2 (localeName P))); assumption.
  - rewrite constructor_resolve_run. cbn [m_currentLanguage].
    match goal with
    | |- result (initializeLanguage P ?w0) = _ =>
        destruct (initializeLanguage_run P w0) as (_ & Hres0 & _)
    end.
    cbn zeta in Hres0. unfold usable in Hres0.
    cbn [settings m_availableLanguages] in Hres0.
    rewrite Hres0, Hres. reflexivity.
  - intros Hnone Hloc. rewrite Hres, Hnone, Hloc. reflexivity.
Qed.

(** ** The supported-set invariant and where it breaks *)

Lemma constructor_resolve_supported (P : Platform) (st : gmap string string) :
  In (m_currentLanguage (world (constructor_resolve P (pristine st)))) supported.
Proof.
  rewrite constructor_resolve_run. cbn [m_currentLanguage].
  match goal with
  | |- In (result (initializeLanguage P ?w0)) _ =>
      destruct (initializeLanguage_run P w0) as (_ & Hres & _)
  end.
  cbn zeta in Hres. unfold usable in Hres.
  cbn [settings m_availableLanguages] in Hres. rewrite Hres.
  destruct (negb (Qt.isEmpty (default "" (st !! "language")))) eqn:He;
    cbn [andb].
  - destruct (Qt.contains supported (default "" (st !! "language"))) eqn:Hc.
    + now apply contains_In.
    + destruct (Qt.contains supported (Qt.left 2 (localeName P))) eqn:Hs.
      * now apply contains_In.
      * simpl; auto.
  - destruct (Qt.contains supported (Qt.left 2 (localeName P))) eqn:Hs.
    + now apply contains_In.
    + simpl; auto.
Qed.

(** The load algorithm keeps the current language in the supported set
    when the locale's subtag is a supported code or has no resource in
    the bundle. *)
Lemma loadLanguage_supported (P : Platform) (language : string) (w : World) :
  In (Qt.left 2 (localeName P)) supported
  \/ qmLoads P (resourcePath (Qt.left 2 (localeName P))) = false ->
  In (m_currentLanguage w) supported ->
  In (m_currentLanguage (world (loadLanguage P language w))) supported.
Proof.
  intros Hsys Hcur.
  destruct (loadLanguage_summary P language w)
    as (_ & _ & _ & _ & [-> | [[-> Hl] | ->]]).
  - exact Hcur.
  - destruct Hsys as [H | H]; [exact H | congruence].
  - simpl; auto.
Qed.

(** Under that condition on the platform every reachable state has a
    supported current language. *)
Lemma reachable_supported (P : Platform) (w : World) :
  In (Qt.left 2 (localeName P)) supported
  \/ qmLoads P (resourcePath (Qt.left 2 (localeName P))) = false ->
  reachable P w -> In (m_currentLanguage w) supported.
Proof.
  intros Hsys. induction 1 as [st | w language Hw IH].
  - rewrite constructor_run.
    apply loadLanguage_supported; [exact Hsys |].
    apply constructor_resolve_supported.
  - destruct (setCurrentLanguage_paths P language w)
      as [H | [[H1 H2] | [(H1 & H2 & H3) | Ha]]].
    + now rewrite setCurrentLanguage_empty.
    + now rewrite setCurrentLanguage_unsupported.
    + now rewrite setCurrentLanguage_already_current.
    + rewrite (setCurrentLanguage_accepted P language w Ha). cbn [world].
      apply loadLanguage_supported; [exact Hsys |].
      cbn [tentative m_currentLanguage].
      destruct Ha as (_ & Hc & _).
      rewrite (reachable_available P w Hw) in Hc. now apply contains_In.
Qed.

(** C1 (fails on the code). On a German desktop whose bundle holds a
    German translation but no Spanish one, requesting "es" ends with the
    current language "de": a reachable state whose current language is
    outside the supported set.  The fallback through the locale's subtag
    assigns it without the membership test that startup resolution
    applies to the same value. *)
Theorem system_fallback_leaves_supported_set :
  let w0 := world (constructor desktop_de (pristine no_settings)) in
  let w1 := world (setCurrentLanguage desktop_de "es" w0) in
  m_currentLanguage w0 = "en"
  /\ reachable desktop_de w1
  /\ m_availableLanguages w1 = supported
  /\ m_currentLanguage w1 = "de"
  /\ ~ In (m_currentLanguage w1) supported.
Proof.
  cbn zeta. split; [reflexivity |]. split.
  { apply reachable_setCurrentLanguage, reachable_constructor. }
  split; [reflexivity |]. split; [reflexivity |].
  change (m_currentLanguage
            (world (setCurrentLanguage desktop_de "es"
                      (world (constructor desktop_de (pristine no_settings))))))
    with "de".
  simpl. intros [H | [H | [H | []]]]; discriminate H.
Qed.

(** A request equal to the current language, when that language is
    non-empty and available, changes nothing and emits no signal. *)
Lemma setCurrentLanguage_current_noop (P : Platform) (w : World) :
  m_currentLanguage w <> "" ->
  In (m_currentLanguage w) (m_availableLanguages w) ->
  let r := setCurrentLanguage P (m_currentLanguage w) w in
  world r = w /\ signals (effects r) = [] /\ settingsWrites (effects r) = []
  /\ loadAttempts (effects r) = [].
Proof.
  intros He Hc. cbn zeta.
  rewrite setCurrentLanguage_already_current.
  - repeat split; reflexivity.
  - now apply isEmpty_false.
  - now apply contains_In.
  - apply String.eqb_refl.
Qed.

(** C7 (fails on the code). In the reachable state above, whose current
    language is "de", the request "de" equals the current language and
    yet a [languageLoadFailed] is emitted: validation runs before the
    comparison with the current language. The state itself is left as
    it was. *)
Theorem setCurrentLanguage_current_unsupported_notifies :
  let w0 := world (constructor desktop_de (pristine no_settings)) in
  let w1 := world (setCurrentLanguage desktop_de "es" w0) in
  let r := setCurrentLanguage desktop_de (m_currentLanguage w1) w1 in
  reachable desktop_de w1
  /\ world r = w1
  /\ signals (effects r)
     = [languageLoadFailed "de"
          "Unsupported language. Available languages: en, es, fr"].
Proof.
  cbn zeta. split.
  { apply reachable_setCurrentLanguage, reachable_constructor. }
  split; reflexivity.
Qed.

(** ** The theorems at concrete inputs *)

(** First start on a German desktop with nothing bundled: startup
    resolution answers "en". *)
Lemma initializeLanguage_resolution_witness :
  let w := world (constructor_resolve desktop_de_empty (pristine no_settings)) in
  m_availableLanguages w = supported
  /\ result (initializeLanguage desktop_de_empty w) = "en".
Proof.
  cbn zeta. split; [reflexivity |].
  destruct (initializeLanguage_resolution desktop_de_empty
              (world (constructor_resolve desktop_de_empty (pristine no_settings)))
              eq_refl) as (_ & _ & H).
  apply H; reflexivity.
Defined.

(** C4 as stated fails: with the Spanish translation missing on a French
    desktop, the validated request "es" from "en" emits
    [currentLanguageChanged] twice, once by the fallback and once by
    [setCurrentLanguage]. *)
Lemma setCurrentLanguage_fallback_notifies_twice :
  let w := world (constructor desktop_fr_no_es (pristine (saved "en"))) in
  let r := setCurrentLanguage desktop_fr_no_es "es" w in
  reachable desktop_fr_no_es w
  /\ "es" <> "" /\ In "es" supported /\ m_currentLanguage w <> "es"
  /\ signals (effects r)
     = [currentLanguageChanged; currentLanguageChanged; languageChanged]
  /\ m_currentLanguage (world r) = "fr"
  /\ ~ (emitted currentLanguageChanged (effects r) = 1
        /\ emitted languageChanged (effects r) = 1).
Proof.
  cbn zeta. split; [apply reachable_constructor |].
  split; [discriminate |]. split; [simpl; auto |].
  split; [vm_compute; discriminate |].
  split; [reflexivity |]. split; [reflexivity |].
  vm_compute. intros [H _]. discriminate H.
Qed.

(** The same request where the amended statement applies: two
    [currentLanguageChanged], one [languageChanged]. *)
Lemma setCurrentLanguage_notifications_witness :
  let w := world (constructor desktop_fr_no_es (pristine (saved "en"))) in
  let r := setCurrentLanguage desktop_fr_no_es "es" w in
  (reachable desktop_fr_no_es w
   /\ "es" <> "" /\ In "es" supported /\ m_currentLanguage w <> "es")
  /\ emitted languageChanged (effects r) = 1
  /\ emitted currentLanguageChanged (effects r) = 2.
Proof.
  cbn zeta.
  assert (Hw : reachable desktop_fr_no_es
                 (world (constructor desktop_fr_no_es (pristine (saved "en")))))
    by apply reachable_constructor.
  assert (He : "es" <> "") by discriminate.
  assert (Hs : In "es" supported) by (simpl; auto).
  assert (Hn : m_currentLanguage
                 (world (constructor desktop_fr_no_es (pristine (saved "en"))))
               <> "es") by (vm_compute; discriminate).
  split; [repeat split; assumption |].
  destruct (setCurrentLanguage_notifications desktop_fr_no_es _ "es"
              Hw He Hs Hn) as (_ & H1 & H2).
  split; [exact H1 | exact H2].
Defined.

(** A Spanish request on a French desktop with everything bundled: one
    write of "es", and the store holds "es" afterwards. *)
Lemma setCurrentLanguage_persists_request_witness :
  let w := world (constructor desktop_fr (pristine no_settings)) in
  let r := setCurrentLanguage desktop_fr "es" w in
  (reachable desktop_fr w
   /\ "es" <> "" /\ In "es" supported /\ m_currentLanguage w <> "es")
  /\ settingsWrites (effects r) = [("language", "es")]
  /\ settings (world r) !! "language" = Some "es".
Proof.
  cbn zeta.
  assert (Hw : reachable desktop_fr
                 (world (constructor desktop_fr (pristine no_settings))))
    by apply reachable_constructor.
  assert (He : "es" <> "") by discriminate.
  assert (Hs : In "es" supported) by (simpl; auto).
  assert (Hn : m_currentLanguage
                 (world (constructor desktop_fr (pristine no_settings)))
               <> "es") by (vm_compute; discriminate).
  split; [repeat split; assumption |].
  destruct (setCurrentLanguage_persists_request desktop_fr _ "es"
              Hw He Hs Hn) as (H1 & _ & _ & _ & _ & _ & H2).
  split; [exact H1 | exact H2].
Defined.

(** The unsupported request "de" on a French desktop. *)
Lemma setCurrentLanguage_rejects_invalid_witness :
  let w := world (constructor desktop_fr (pristine no_settings)) in
  let r := setCurrentLanguage desktop_fr "de" w in
  (reachable desktop_fr w /\ ~ In "de" supported)
  /\ world r = w
  /\ effects r
     = [Emit (languageLoadFailed "de"
                "Unsupported language. Available languages: en, es, fr")].
Proof.
  cbn zeta.
  assert (Hw : reachable desktop_fr
                 (world (constructor desktop_fr (pristine no_settings))))
    by apply reachable_constructor.
  assert (Hu : ~ In "de" supported).
  { simpl. intros [H | [H | [H | []]]]; discriminate H. }
  split; [split; assumption |].
  destruct (setCurrentLanguage_rejects_invalid desktop_fr _ "de"
              Hw (or_intror Hu)) as (H1 & _ & H2 & _).
  split; [exact H1 | exact H2].
Defined.

(** The request "fr" when "fr" is current: no write. *)
Lemma setCurrentLanguage_no_write_unless_accepted_witness :
  let w := world (constructor desktop_fr (pristine no_settings)) in
  let r := setCurrentLanguage desktop_fr "fr" w in
  (reachable desktop_fr w /\ "fr" = m_currentLanguage w)
  /\ settingsWrites (effects r) = [] /\ settings (world r) = settings w.
Proof.
  cbn zeta.
  assert (Hw : reachable desktop_fr
                 (world (constructor desktop_fr (pristine no_settings))))
    by apply reachable_constructor.
  assert (Hc : "fr" = m_currentLanguage
                        (world (constructor desktop_fr (pristine no_settings))))
    by reflexivity.
  split; [split; assumption |].
  exact (setCurrentLanguage_no_write_unless_accepted desktop_fr _ "fr"
           Hw (or_intror (or_intror Hc))).
Defined.

(** Nothing bundled on a German desktop: the load algorithm entered for
    "es" leaves "es" current and emits nothing. *)
Lemma loadLanguage_total_failure_witness :
  let w := tentative "es" (pristine no_settings) in
  let r := loadLanguage desktop_de_empty "es" w in
  (qmLoads desktop_de_empty (resourcePath "es") = false
   /\ qmLoads desktop_de_empty
        (resourcePath (Qt.left 2 (localeName desktop_de_empty))) = false
   /\ qmLoads desktop_de_empty (resourcePath "en") = false)
  /\ m_currentLanguage (world r) = "es"
  /\ signals (effects r) = [].
Proof.
  cbn zeta. split; [repeat split; reflexivity |].
  destruct (loadLanguage_total_failure desktop_de_empty "es"
              (tentative "es" (pristine no_settings))
              eq_refl eq_refl eq_refl) as (_ & _ & H1 & _ & H2 & _).
  split; [exact (H1 eq_refl) | exact H2].
Defined.

(** * Further properties of the code *)

(** ** LanguageEnum.cpp *)

(** [getAllCodes] lists each tag once; it is exactly the set of tags
    [toString] produces, and [isSupported] is membership in it. *)
Theorem getAllCodes_exact :
  List.NoDup Language.getAllCodes
  /\ (forall s : string,
        In s Language.getAllCodes <-> exists c, Language.toString c = s)
  /\ (forall s : string,
        Language.isSupported s = true <-> In s Language.getAllCodes)
  /\ (forall s : string,
        Language.isSupported s = Qt.contains Language.getAllCodes s).
Proof.
  split; [| split; [| split]].
  - change Language.getAllCodes with ["en"; "es"; "fr"].
    repeat (constructor; [simpl; intros H;
      repeat (destruct H as [H | H]; [discriminate H |]); exact H |]).
    constructor.
  - intros s. change Language.getAllCodes with ["en"; "es"; "fr"]. split.
    + simpl. intros [<- | [<- | [<- | []]]].
      * now exists Language.English.
      * now exists Language.Spanish.
      * now exists Language.French.
    + intros [[] <-]; simpl; auto.
  - intros s. rewrite isSupported_cases.
    change Language.getAllCodes with ["en"; "es"; "fr"]. simpl.
    split; [intros [-> | [-> | ->]]; auto |].
    intros [<- | [<- | [<- | []]]]; auto.
  - intros s. unfold Language.isSupported, Qt.contains.
    change Language.getAllCodes with ["en"; "es"; "fr"]. simpl.
    now rewrite orb_false_r, orb_assoc.
Qed.

(** [fromString] recognises "es" and "fr" and nothing else: every other
    string, "en" and the empty string alike, is read as English, so
    English is the only code with more than one spelling. *)
Theorem fromString_classification (s : string) :
  (Language.fromString s = Language.Spanish <-> s = "es")
  /\ (Language.fromString s = Language.French <-> s = "fr")
  /\ (Language.fromString s = Language.English <-> s <> "es" /\ s <> "fr").
Proof.
  unfold Language.fromString.
  destruct (String.eqb s "en") eqn:E1.
  { apply String.eqb_eq in E1. subst s.
    repeat split; try discriminate; auto. }
  destruct (String.eqb s "es") eqn:E2.
  { apply String.eqb_eq in E2. subst s.
    repeat split; try discriminate; auto. intros [H _]. now contradiction H. }
  destruct (String.eqb s "fr") eqn:E3.
  { apply String.eqb_eq in E3. subst s.
    repeat split; try discriminate; auto. intros [_ H]. now contradiction H. }
  apply String.eqb_neq in E2, E3.
  repeat split; try discriminate; auto; intros ->; congruence.
Qed.

(** ** The resource naming convention *)

Lemma length_append (a b : string) :
  String.length (String.append a b) = String.length a + String.length b.
Proof. induction a as [| c a IH]; simpl; [reflexivity | now rewrite IH]. Qed.

Lemma append_cancel_r (a b suffix : string) :
  String.append a suffix = String.append b suffix -> a = b.
Proof.
  revert b. induction a as [| c a IH]; intros [| d b] H.
  - reflexivity.
  - apply (f_equal String.length) in H.
    rewrite !length_append in H. simpl in H. lia.
  - apply (f_equal String.length) in H.
    rewrite !length_append in H. simpl in H. lia.
  - cbn [String.append] in H. injection H as -> H. f_equal. now apply IH.
Qed.

(** Two language codes never share a translation resource: the path
    built from a code determines the code. *)
Theorem resourcePath_injective (a b : string) :
  resourcePath a = resourcePath b -> a = b.
Proof.
  unfold resourcePath. intros H.
  apply (inj (String.append ":/translations/app_")) in H.
  now apply append_cancel_r in H.
Qed.

(** ** One activation attempt *)

(** [tryLoadLanguage] replaces the translator rather than adding one:
    it reports whether the resource loads; on success exactly that
    resource is attached, on failure nothing is attached any more,
    whatever was attached before.  It makes one load attempt, emits no
    signal, and leaves the current language, the list of languages and
    the settings store as they were. *)
Theorem tryLoadLanguage_replaces_translator
    (P : Platform) (language : string) (w : World) :
  let r := tryLoadLanguage P language w in
  result r = qmLoads P (resourcePath language)
  /\ attached (world r)
     = (if qmLoads P (resourcePath language)
        then Some (resourcePath language) else None)
  /\ m_translator (world r) = attached (world r)
  /\ m_currentLanguage (world r) = m_currentLanguage w
  /\ m_availableLanguages (world r) = m_availableLanguages w
  /\ settings (world r) = settings w
  /\ loadAttempts (effects r) = [resourcePath language]
  /\ signals (effects r) = []
  /\ settingsWrites (effects r) = [].
Proof.
  cbn zeta. rewrite tryLoadLanguage_run.
  destruct (qmLoads P (resourcePath language)); repeat split; reflexivity.
Qed.

(** ** The load algorithm and the translator *)

Lemma loadLanguage_loads (P : Platform) (language : string) (w : World) :
  qmLoads P (resourcePath language) = true ->
  loadLanguage P language w =
  mkRun tt
    {| m_currentLanguage := m_currentLanguage w;
       m_availableLanguages := m_availableLanguages w;
       m_translator := Some (resourcePath language);
       installed := true;
       settings := settings w |}
    [RemoveTranslator; TranslatorLoad (resourcePath language) true;
     InstallTranslator;
     Log Debug ["Successfully loaded language:"; language; "from";
                resourcePath language]].
Proof.
  intros Hl. unfold loadLanguage. run_prims.
  rewrite tryLoadLanguage_run, Hl. reflexivity.
Qed.

(** Entered with the candidate current, the load algorithm ends with the
    translator serving whatever language it has made current. *)
Lemma loadLanguage_serves (P : Platform) (w : World) :
  servesCurrent P (world (loadLanguage P (m_currentLanguage w) w)).
Proof.
  unfold servesCurrent.
  loadLanguage_cases P (m_currentLanguage w);
    cbn [m_currentLanguage m_translator installed];
    repeat match goal with
           | H : qmLoads _ _ = _ |- _ => rewrite H
           end;
    split; reflexivity.
Qed.

Lemma setCurrentLanguage_serves
    (P : Platform) (language : string) (w : World) :
  servesCurrent P w ->
  servesCurrent P (world (setCurrentLanguage P language w)).
Proof.
  intros Hw.
  destruct (setCurrentLanguage_paths P language w)
    as [H | [[H1 H2] | [(H1 & H2 & H3) | Ha]]].
  - now rewrite setCurrentLanguage_empty.
  - now rewrite setCurrentLanguage_unsupported.
  - now rewrite setCurrentLanguage_already_current.
  - rewrite (setCurrentLanguage_accepted P language w Ha). cbn [world].
    apply (loadLanguage_serves P (tentative language w)).
Qed.

(** In every reachable state the translator serves the current language:
    when that language's resource loads it is the one attached to the
    application, and when it does not load nothing is attached and the
    translator is empty.  No state shows one language as current while
    another one's strings are displayed. *)
Theorem reachable_translator_serves_current (P : Platform) (w : World) :
  reachable P w ->
  attached w
  = (if qmLoads P (resourcePath (m_currentLanguage w))
     then Some (resourcePath (m_currentLanguage w)) else None)
  /\ m_translator w = attached w
  /\ installed w = qmLoads P (resourcePath (m_currentLanguage w)).
Proof.
  intros Hw.
  assert (Hs : servesCurrent P w).
  { induction Hw as [st | w language Hw IH].
    - rewrite constructor_run. apply loadLanguage_serves.
    - now apply setCurrentLanguage_serves. }
  destruct Hs as [Ht Hi]. unfold attached. rewrite Hi, Ht.
  destruct (qmLoads P (resourcePath (m_currentLanguage w)));
    repeat split; reflexivity.
Qed.

(** The strongest statement about the current language that holds in
    every reachable state: it is a supported code, or it is the two-letter
    prefix of the locale name and that prefix has a loadable resource. *)
Theorem reachable_current_supported_or_system (P : Platform) (w : World) :
  reachable P w ->
  In (m_currentLanguage w) supported
  \/ (m_currentLanguage w = Qt.left 2 (localeName P)
      /\ qmLoads P (resourcePath (Qt.left 2 (localeName P))) = true).
Proof.
  induction 1 as [st | w language Hw IH].
  - rewrite constructor_run.
    destruct (loadLanguage_summary P
      (m_currentLanguage (world (constructor_resolve P (pristine st))))
      (world (constructor_resolve P (pristine st))))
      as (_ & _ & _ & _ & [-> | [H | ->]]).
    + left. apply constructor_resolve_supported.
    + right. exact H.
    + left. simpl; auto.
  - destruct (setCurrentLanguage_paths P language w)
      as [H | [[H1 H2] | [(H1 & H2 & H3) | Ha]]].
    + now rewrite setCurrentLanguage_empty.
    + now rewrite setCurrentLanguage_unsupported.
    + now rewrite setCurrentLanguage_already_current.
    + rewrite (setCurrentLanguage_accepted P language w Ha). cbn [world].
      destruct (loadLanguage_summary P language (tentative language w))
        as (_ & _ & _ & _ & [-> | [H | ->]]).
      * left. cbn [tentative m_currentLanguage].
        destruct Ha as (_ & Hc & _).
        rewrite (reachable_available P w Hw) in Hc. now apply contains_In.
      * right. exact H.
      * left. simpl; auto.
Qed.

(** ** [setCurrentLanguage]: outcomes *)

Lemma supported_nonempty (language : string) :
  In language supported -> language <> "".
Proof. simpl. intros [<- | [<- | [<- | []]]]; discriminate. Qed.

Lemma setCurrentLanguage_accepted_signals
    (P : Platform) (language : string) (w : World) :
  accepted language w ->
  signals (effects (setCurrentLanguage P language w))
  = (if fallbackTaken P language then [currentLanguageChanged] else [])
    ++ [currentLanguageChanged; languageChanged].
Proof.
  intros Ha. rewrite (setCurrentLanguage_accepted P language w Ha).
  cbn [effects].
  destruct (loadLanguage_summary P language (tentative language w))
    as (_ & _ & _ & Hsig & _).
  change (SettingsSetValue "language" language :: ?l)
    with ([SettingsSetValue "language" language] ++ l).
  rewrite !signals_app, Hsig. reflexivity.
Qed.

(** A supported request whose resource loads, made in a reachable state
    with another language current: the request becomes the current
    language, its resource is the one attached, it is the stored
    preference, the only resource tried is its own, the locale is not
    consulted, and exactly the pair [currentLanguageChanged],
    [languageChanged] is emitted. *)
Theorem setCurrentLanguage_success
    (P : Platform) (w : World) (language : string) :
  reachable P w ->
  In language supported ->
  m_currentLanguage w <> language ->
  qmLoads P (resourcePath language) = true ->
  let r := setCurrentLanguage P language w in
  m_currentLanguage (world r) = language
  /\ attached (world r) = Some (resourcePath language)
  /\ settings (world r) !! "language" = Some language
  /\ loadAttempts (effects r) = [resourcePath language]
  /\ localeQueries (effects r) = 0
  /\ signals (effects r) = [currentLanguageChanged; languageChanged].
Proof.
  intros Hw Hs Hn Hl. cbn zeta.
  rewrite (setCurrentLanguage_accepted P language w
             (reachable_accepted P w language Hw
                (supported_nonempty language Hs) Hs Hn)).
  rewrite (loadLanguage_loads P language (tentative language w) Hl).
  cbn [world effects app]. repeat split.
  cbn [tentative settings]. apply lookup_insert_eq.
Qed.

(** Asking twice for a supported language whose resource loads: after
    the first call it is current, and the second call does nothing at
    all: same state, no signal, no load attempt, no write. *)
Theorem setCurrentLanguage_twice
    (P : Platform) (w : World) (language : string) :
  reachable P w ->
  In language supported ->
  qmLoads P (resourcePath language) = true ->
  let r1 := setCurrentLanguage P language w in
  let r2 := setCurrentLanguage P language (world r1) in
  m_currentLanguage (world r1) = language
  /\ world r2 = world r1
  /\ signals (effects r2) = []
  /\ loadAttempts (effects r2) = []
  /\ settingsWrites (effects r2) = [].
Proof.
  intros Hw Hs Hl. cbn zeta.
  pose proof (supported_nonempty language Hs) as He.
  assert (Hcur : m_currentLanguage (world (setCurrentLanguage P language w))
                 = language).
  { destruct (String.eqb (m_currentLanguage w) language) eqn:E.
    - rewrite setCurrentLanguage_already_current.
      + now apply String.eqb_eq.
      + now apply isEmpty_false.
      + rewrite (reachable_available P w Hw). now apply contains_In.
      + exact E.
    - apply String.eqb_neq in E.
      rewrite (setCurrentLanguage_accepted P language w
                 (reachable_accepted P w language Hw He Hs E)).
      now rewrite (loadLanguage_loads P language (tentative language w) Hl). }
  split; [exact Hcur |].
  rewrite (setCurrentLanguage_already_current P language
             (world (setCurrentLanguage P language w))).
  - repeat split; reflexivity.
  - now apply isEmpty_false.
  - rewrite setCurrentLanguage_available, (reachable_available P w Hw).
    now apply contains_In.
  - rewrite Hcur. apply String.eqb_refl.
Qed.

(** A validated request for which the requested, the locale's and the
    English resource all fail: the request is nevertheless the current
    language and the stored preference, nothing is attached, and the
    pair of change signals is emitted as for a success. *)
Theorem setCurrentLanguage_exhausted
    (P : Platform) (w : World) (language : string) :
  reachable P w ->
  In language supported ->
  m_currentLanguage w <> language ->
  qmLoads P (resourcePath language) = false ->
  qmLoads P (resourcePath (Qt.left 2 (localeName P))) = false ->
  qmLoads P (resourcePath "en") = false ->
  let r := setCurrentLanguage P language w in
  m_currentLanguage (world r) = language
  /\ attached (world r) = None
  /\ settings (world r) !! "language" = Some language
  /\ signals (effects r) = [currentLanguageChanged; languageChanged].
Proof.
  intros Hw Hs Hn Hl Hsys Hen. cbn zeta.
  pose proof (reachable_accepted P w language Hw
                (supported_nonempty language Hs) Hs Hn) as Ha.
  destruct (setCurrentLanguage_total_failure P w language Ha Hl Hsys Hen)
    as (H1 & H2 & H3).
  split; [exact H1 |]. split; [exact H2 |]. split; [| exact H3].
  rewrite (setCurrentLanguage_accepted P language w Ha). cbn [world].
  destruct (loadLanguage_summary P language (tentative language w))
    as (_ & -> & _).
  cbn [tentative settings]. apply lookup_insert_eq.
Qed.

(** The signals of one call have one of four shapes, in any state:
    none; one [languageLoadFailed] for the request, with the state
    untouched; the pair of change signals; or that pair preceded by one
    more [currentLanguageChanged].  A failure is never mixed with a
    change, and [languageChanged] comes last and at most once. *)
Theorem setCurrentLanguage_signal_shapes
    (P : Platform) (w : World) (language : string) :
  let r := setCurrentLanguage P language w in
  (signals (effects r) = [] /\ world r = w)
  \/ ((exists reason, signals (effects r) = [languageLoadFailed language reason])
      /\ world r = w)
  \/ signals (effects r) = [currentLanguageChanged; languageChanged]
  \/ signals (effects r)
     = [currentLanguageChanged; currentLanguageChanged; languageChanged].
Proof.
  cbn zeta.
  destruct (setCurrentLanguage_paths P language w)
    as [H | [[H1 H2] | [(H1 & H2 & H3) | Ha]]].
  - rewrite setCurrentLanguage_empty by assumption.
    right; left. split; [eexists |]; reflexivity.
  - rewrite setCurrentLanguage_unsupported by assumption.
    right; left. split; [eexists |]; reflexivity.
  - rewrite setCurrentLanguage_already_current by assumption.
    left. split; reflexivity.
  - rewrite (setCurrentLanguage_accepted_signals P language w Ha).
    destruct (fallbackTaken P language); [right; right; right | right; right; left];
      reflexivity.
Qed.

(** The only key [setCurrentLanguage] ever writes is "language", the only
    value the request itself, and only for a request that is in the list
    of available languages and differs from the current one; every other
    key of the store keeps its value. *)
Theorem setCurrentLanguage_settings_frame
    (P : Platform) (w : World) (language : string) :
  let r := setCurrentLanguage P language w in
  (forall k : string, k <> "language" ->
     settings (world r) !! k = settings w !! k)
  /\ (forall k v : string, In (k, v) (settingsWrites (effects r)) ->
        k = "language" /\ v = language
        /\ In language (m_availableLanguages w)
        /\ m_currentLanguage w <> language).
Proof.
  cbn zeta.
  destruct (setCurrentLanguage_paths P language w)
    as [H | [[H1 H2] | [(H1 & H2 & H3) | Ha]]].
  - rewrite setCurrentLanguage_empty by assumption.
    split; [reflexivity | intros k v []].
  - rewrite setCurrentLanguage_unsupported by assumption.
    split; [reflexivity | intros k v []].
  - rewrite setCurrentLanguage_already_current by assumption.
    split; [reflexivity | intros k v []].
  - rewrite (setCurrentLanguage_accepted P language w Ha).
    cbn [world effects].
    destruct (loadLanguage_summary P language (tentative language w))
      as (_ & -> & Hwr & _).
    split.
    + intros k Hk. cbn [tentative settings]. now apply lookup_insert_ne.
    + intros k v.
      change (SettingsSetValue "language" language :: ?l)
        with ([SettingsSetValue "language" language] ++ l).
      rewrite !settingsWrites_app, Hwr. simpl.
      intros [E | []]. injection E as <- <-.
      destruct Ha as (_ & Hc & Hn).
      repeat split; [now apply contains_In | now apply String.eqb_neq].
Qed.

(** ** Startup *)

Lemma settingsReads_app (es es' : list Effect) :
  settingsReads (es ++ es') = settingsReads es ++ settingsReads es'.
Proof. unfold settingsReads. apply omap_app. Qed.

Lemma loadLanguage_no_settings_reads
    (P : Platform) (language : string) (w : World) :
  settingsReads (effects (loadLanguage P language w)) = [].
Proof. loadLanguage_cases P language; reflexivity. Qed.

Lemma initializeLanguage_effects (P : Platform) (w : World) :
  let r := initializeLanguage P w in
  signals (effects r) = []
  /\ settingsWrites (effects r) = []
  /\ settingsReads (effects r) = ["language"]
  /\ loadAttempts (effects r) = [].
Proof.
  cbn zeta. unfold initializeLanguage. run_cases; repeat split; reflexivity.
Qed.

Lemma constructor_resolve_effects (P : Platform) (st : gmap string string) :
  effects (constructor_resolve P (pristine st))
  = effects (initializeLanguage P
               {| m_currentLanguage := "";
                  m_availableLanguages := supported;
                  m_translator := None;
                  installed := false;
                  settings := st |}).
Proof.
  unfold constructor_resolve, pristine, supported. run_prims.
  match goal with
  | |- context [initializeLanguage P ?w0] =>
      destruct (initializeLanguage P w0) as [initial w' es]
  end.
  cbn [effects app]. apply app_nil_r.
Qed.

Lemma constructor_effects (P : Platform) (w : World) :
  let r1 := constructor_resolve P w in
  effects (constructor P w)
  = effects r1
    ++ effects (loadLanguage P (m_currentLanguage (world r1)) (world r1)).
Proof.
  cbn zeta. unfold constructor, bind, get.
  destruct (constructor_resolve P w) as [[] w1 es]. cbn [world result effects].
  destruct (loadLanguage P (m_currentLanguage w1) w1) as [[] w2 es2].
  reflexivity.
Qed.

(** Startup resolution answers with a code from the list of available
    languages or with "en", whatever the store and the locale hold; it
    changes no state, emits no signal, writes nothing, tries no resource,
    and reads the one key "language". *)
Theorem initializeLanguage_total (P : Platform) (w : World) :
  let r := initializeLanguage P w in
  (In (result r) (m_availableLanguages w) \/ result r = "en")
  /\ world r = w
  /\ signals (effects r) = []
  /\ settingsWrites (effects r) = []
  /\ loadAttempts (effects r) = []
  /\ settingsReads (effects r) = ["language"].
Proof.
  cbn zeta.
  destruct (initializeLanguage_run P w) as (Hw & Hres & _).
  destruct (initializeLanguage_effects P w) as (H1 & H2 & H3 & H4).
  cbn zeta in Hw, Hres, H1, H2, H3, H4.
  repeat split; try assumption.
  rewrite Hres. unfold usable.
  destruct (negb (Qt.isEmpty (default "" (settings w !! "language"))));
    cbn [andb].
  - destruct (Qt.contains (m_availableLanguages w)
                (default "" (settings w !! "language"))) eqn:Hc.
    + left. now apply contains_In.
    + destruct (Qt.contains (m_availableLanguages w)
                  (Qt.left 2 (localeName P))) eqn:Hs.
      * left. now apply contains_In.
      * now right.
  - destruct (Qt.contains (m_availableLanguages w)
                (Qt.left 2 (localeName P))) eqn:Hs.
    + left. now apply contains_In.
    + now right.
Qed.

(** Construction never writes to the settings store: a language taken
    from the locale, the default, or a fallback is not persisted, and an
    unusable stored value is left in place.  The store is read once, for
    the key "language". *)
Theorem constructor_leaves_settings (P : Platform) (st : gmap string string) :
  let r := constructor P (pristine st) in
  settings (world r) = st
  /\ settingsWrites (effects r) = []
  /\ settingsReads (effects r) = ["language"].
Proof.
  cbn zeta. rewrite constructor_run, constructor_effects. cbn zeta.
  destruct (loadLanguage_summary P
    (m_currentLanguage (world (constructor_resolve P (pristine st))))
    (world (constructor_resolve P (pristine st))))
    as (_ & Hst & Hwr & _).
  rewrite Hst, settingsWrites_app, settingsReads_app, Hwr,
    loadLanguage_no_settings_reads, constructor_resolve_effects.
  match goal with
  | |- context [initializeLanguage P ?w0] =>
      destruct (initializeLanguage_effects P w0) as (_ & H2 & H3 & _)
  end.
  cbn zeta in H2, H3. rewrite H2, H3, constructor_resolve_run.
  repeat split; reflexivity.
Qed.

(** Construction emits at most one signal: [currentLanguageChanged],
    exactly when the load algorithm ends on a fallback for the language
    startup resolution chose; never [languageChanged], never
    [languageLoadFailed]. *)
Theorem constructor_signals (P : Platform) (st : gmap string string) :
  let initial := m_currentLanguage (world (constructor_resolve P (pristine st))) in
  signals (effects (constructor P (pristine st)))
  = (if fallbackTaken P initial then [currentLanguageChanged] else []).
Proof.
  cbn zeta. rewrite constructor_effects. cbn zeta.
  destruct (loadLanguage_summary P
    (m_currentLanguage (world (constructor_resolve P (pristine st))))
    (world (constructor_resolve P (pristine st))))
    as (_ & _ & _ & Hsig & _).
  rewrite signals_app, Hsig, constructor_resolve_effects.
  match goal with
  | |- context [initializeLanguage P ?w0] =>
      destruct (initializeLanguage_effects P w0) as (H1 & _)
  end.
  cbn zeta in H1. rewrite H1. reflexivity.
Qed.

Lemma constructor_resolve_saved
    (P : Platform) (st : gmap string string) (language : string) :
  st !! "language" = Some language ->
  In language supported ->
  constructor_resolve P (pristine st) =
  mkRun tt
    {| m_currentLanguage := language;
       m_availableLanguages := supported;
       m_translator := None;
       installed := false;
       settings := st |}
    [SettingsValue "language"; Log Debug ["Restored saved language:"; language]].
Proof.
  intros Hst Hs.
  unfold constructor_resolve, initializeLanguage, pristine. run_prims.
  rewrite Hst. change (default "" (Some language)) with language.
  assert (He : Qt.isEmpty language = false)
    by (apply isEmpty_false; now apply supported_nonempty).
  assert (Hc : Qt.contains ["en"; "es"; "fr"] language = true)
    by now apply contains_In.
  rewrite He, Hc. reflexivity.
Qed.

(** Startup with a stored preference that is supported and whose
    resource loads: that language is current after construction and its
    resource is attached; the locale is never consulted, no signal is
    emitted, and one resource is tried. *)
Theorem constructor_restores_saved
    (P : Platform) (st : gmap string string) (language : string) :
  st !! "language" = Some language ->
  In language supported ->
  qmLoads P (resourcePath language) = true ->
  let r := constructor P (pristine st) in
  result (currentLanguage (world r)) = language
  /\ attached (world r) = Some (resourcePath language)
  /\ localeQueries (effects r) = 0
  /\ loadAttempts (effects r) = [resourcePath language]
  /\ signals (effects r) = [].
Proof.
  intros Hst Hs Hl. cbn zeta.
  rewrite constructor_run, constructor_effects. cbn zeta.
  rewrite (constructor_resolve_saved P st language Hst Hs).
  cbn [world effects m_currentLanguage].
  rewrite loadLanguage_loads by exact Hl.
  repeat split; reflexivity.
Qed.

(** Persist and restore: after a validated request, a later start of the
    program on the store that call left behind (on any platform)
    resolves to the requested language, also when the load algorithm
    had moved the running program to a fallback; and when the request's
    resource loads at that start, the request is the current language
    after construction. *)
Theorem request_restored_at_next_start
    (P P' : Platform) (w : World) (language : string) :
  reachable P w ->
  In language supported ->
  m_currentLanguage w <> language ->
  let st' := settings (world (setCurrentLanguage P language w)) in
  m_currentLanguage (world (constructor_resolve P' (pristine st'))) = language
  /\ (qmLoads P' (resourcePath language) = true ->
      result (currentLanguage (world (constructor P' (pristine st'))))
      = language).
Proof.
  intros Hw Hs Hn. cbn zeta.
  assert (Hst : settings (world (setCurrentLanguage P language w))
                !! "language" = Some language).
  { rewrite (setCurrentLanguage_accepted P language w
               (reachable_accepted P w language Hw
                  (supported_nonempty language Hs) Hs Hn)).
    cbn [world].
    destruct (loadLanguage_summary P language (tentative language w))
      as (_ & -> & _).
    cbn [tentative settings]. apply lookup_insert_eq. }
  split.
  - now rewrite (constructor_resolve_saved P' _ language Hst Hs).
  - intros Hl. rewrite constructor_run. cbn zeta.
    rewrite (constructor_resolve_saved P' _ language Hst Hs).
    cbn [world m_currentLanguage].
    now rewrite loadLanguage_loads by exact Hl.
Qed.

(** ** The list of available languages *)

(** In every reachable state [availableLanguages()] answers the list
    en, es, fr, in that order and without duplicates, has no effect, and
    its members are exactly the strings [Language::isSupported] accepts:
    the controller's list and the enumeration never disagree. *)
Theorem availableLanguages_constant (P : Platform) (w : World) :
  reachable P w ->
  let r := availableLanguages w in
  result r = ["en"; "es"; "fr"]
  /\ world r = w
  /\ effects r = []
  /\ List.NoDup (result r)
  /\ (forall s : string, In s (result r) <-> Language.isSupported s = true).
Proof.
  intros Hw. cbn zeta. unfold availableLanguages, get. cbn [result world effects].
  rewrite (reachable_available P w Hw).
  split; [reflexivity |]. split; [reflexivity |]. split; [reflexivity |].
  split.
  - unfold supported.
    repeat (constructor; [simpl; intros H;
      repeat (destruct H as [H | H]; [discriminate H |]); exact H |]).
    constructor.
  - intros s. rewrite isSupported_cases. unfold supported. simpl.
    split; [intros [<- | [<- | [<- | []]]]; auto |].
    intros [-> | [-> | ->]]; auto.
Qed.

(** ** The further properties at concrete inputs *)

Lemma resourcePath_injective_witness :
  resourcePath "es" = ":/translations/app_es.qm" /\ "es" = "es".
Proof.
  split; [reflexivity |].
  apply (resourcePath_injective "es" "es"). reflexivity.
Defined.

(** Stored preference "es", Spanish translation missing, French desktop:
    the program starts in French with the French resource attached. *)
Lemma reachable_translator_serves_current_witness :
  let w := world (constructor desktop_fr_no_es (pristine (saved "es"))) in
  reachable desktop_fr_no_es w
  /\ m_currentLanguage w = "fr"
  /\ attached w = Some (resourcePath "fr").
Proof.
  cbn zeta.
  assert (Hw : reachable desktop_fr_no_es
                 (world (constructor desktop_fr_no_es (pristine (saved "es")))))
    by apply reachable_constructor.
  split; [exact Hw |]. split; [reflexivity |].
  destruct (reachable_translator_serves_current desktop_fr_no_es _ Hw)
    as (H & _).
  exact H.
Defined.

(** The German desktop of C1: the current language "de" is the locale's
    prefix, with a loadable resource. *)
Lemma reachable_current_supported_or_system_witness :
  let w := world (setCurrentLanguage desktop_de "es"
                    (world (constructor desktop_de (pristine no_settings)))) in
  reachable desktop_de w
  /\ (In (m_currentLanguage w) supported
      \/ (m_currentLanguage w = Qt.left 2 (localeName desktop_de)
          /\ qmLoads desktop_de
               (resourcePath (Qt.left 2 (localeName desktop_de))) = true)).
Proof.
  cbn zeta.
  assert (Hw : reachable desktop_de
                 (world (setCurrentLanguage desktop_de "es"
                    (world (constructor desktop_de (pristine no_settings))))))
    by apply reachable_setCurrentLanguage, reachable_constructor.
  split; [exact Hw |].
  exact (reachable_current_supported_or_system desktop_de _ Hw).
Defined.

Lemma setCurrentLanguage_success_witness :
  let w := world (constructor desktop_fr (pristine no_settings)) in
  let r := setCurrentLanguage desktop_fr "es" w in
  (reachable desktop_fr w /\ In "es" supported /\ m_currentLanguage w <> "es"
   /\ qmLoads desktop_fr (resourcePath "es") = true)
  /\ m_currentLanguage (world r) = "es"
  /\ attached (world r) = Some (resourcePath "es").
Proof.
  cbn zeta.
  assert (Hw : reachable desktop_fr
                 (world (constructor desktop_fr (pristine no_settings))))
    by apply reachable_constructor.
  assert (Hs : In "es" supported) by (simpl; auto).
  assert (Hn : m_currentLanguage
                 (world (constructor desktop_fr (pristine no_settings)))
               <> "es") by (vm_compute; discriminate).
  assert (Hl : qmLoads desktop_fr (resourcePath "es") = true) by reflexivity.
  split; [repeat split; assumption |].
  destruct (setCurrentLanguage_success desktop_fr _ "es" Hw Hs Hn Hl)
    as (H1 & H2 & _).
  split; [exact H1 | exact H2].
Defined.

Lemma setCurrentLanguage_twice_witness :
  let w := world (constructor desktop_fr (pristine no_settings)) in
  let r1 := setCurrentLanguage desktop_fr "es" w in
  let r2 := setCurrentLanguage desktop_fr "es" (world r1) in
  (reachable desktop_fr w /\ In "es" supported
   /\ qmLoads desktop_fr (resourcePath "es") = true)
  /\ world r2 = world r1 /\ signals (effects r2) = [].
Proof.
  cbn zeta.
  assert (Hw : reachable desktop_fr
                 (world (constructor desktop_fr (pristine no_settings))))
    by apply reachable_constructor.
  assert (Hs : In "es" supported) by (simpl; auto).
  assert (Hl : qmLoads desktop_fr (resourcePath "es") = true) by reflexivity.
  split; [repeat split; assumption |].
  destruct (setCurrentLanguage_twice desktop_fr _ "es" Hw Hs Hl)
    as (_ & H1 & H2 & _).
  split; [exact H1 | exact H2].
Defined.

Lemma setCurrentLanguage_exhausted_witness :
  let w := world (constructor desktop_de_empty (pristine no_settings)) in
  let r := setCurrentLanguage desktop_de_empty "es" w in
  (reachable desktop_de_empty w /\ In "es" supported
   /\ m_currentLanguage w <> "es")
  /\ m_currentLanguage (world r) = "es"
  /\ attached (world r) = None
  /\ signals (effects r) = [currentLanguageChanged; languageChanged].
Proof.
  cbn zeta.
  assert (Hw : reachable desktop_de_empty
                 (world (constructor desktop_de_empty (pristine no_settings))))
    by apply reachable_constructor.
  assert (Hs : In "es" supported) by (simpl; auto).
  assert (Hn : m_currentLanguage
                 (world (constructor desktop_de_empty (pristine no_settings)))
               <> "es") by (vm_compute; discriminate).
  split; [repeat split; assumption |].
  destruct (setCurrentLanguage_exhausted desktop_de_empty _ "es" Hw Hs Hn
              eq_refl eq_refl eq_refl) as (H1 & H2 & _ & H3).
  split; [exact H1 |]. split; [exact H2 | exact H3].
Defined.

Lemma constructor_restores_saved_witness :
  let r := constructor desktop_fr (pristine (saved "es")) in
  (saved "es" !! "language" = Some "es" /\ In "es" supported
   /\ qmLoads desktop_fr (resourcePath "es") = true)
  /\ result (currentLanguage (world r)) = "es"
  /\ localeQueries (effects r) = 0.
Proof.
  cbn zeta.
  assert (Hst : saved "es" !! "language" = Some "es") by reflexivity.
  assert (Hs : In "es" supported) by (simpl; auto).
  assert (Hl : qmLoads desktop_fr (resourcePath "es") = true) by reflexivity.
  split; [repeat split; assumption |].
  destruct (constructor_restores_saved desktop_fr _ "es" Hst Hs Hl)
    as (H1 & _ & H2 & _).
  split; [exact H1 | exact H2].
Defined.

(** The request "es" falls back to French while the program runs; the
    next start, with the Spanish translation in place, is in Spanish. *)
Lemma request_restored_at_next_start_witness :
  let w := world (constructor desktop_fr_no_es (pristine (saved "en"))) in
  let r := setCurrentLanguage desktop_fr_no_es "es" w in
  (reachable desktop_fr_no_es w /\ In "es" supported
   /\ m_currentLanguage w <> "es")
  /\ m_currentLanguage (world r) = "fr"
  /\ result (currentLanguage
               (world (constructor desktop_fr (pristine (settings (world r))))))
     = "es".
Proof.
  cbn zeta.
  assert (Hw : reachable desktop_fr_no_es
                 (world (constructor desktop_fr_no_es (pristine (saved "en")))))
    by apply reachable_constructor.
  assert (Hs : In "es" supported) by (simpl; auto).
  assert (Hn : m_currentLanguage
                 (world (constructor desktop_fr_no_es (pristine (saved "en"))))
               <> "es") by (vm_compute; discriminate).
  split; [repeat split; assumption |]. split; [reflexivity |].
  destruct (request_restored_at_next_start desktop_fr_no_es desktop_fr _ "es"
              Hw Hs Hn) as (_ & H).
  apply H. reflexivity.
Defined.

Lemma availableLanguages_constant_witness :
  let w := world (setCurrentLanguage desktop_de "es"
                    (world (constructor desktop_de (pristine no_settings)))) in
  reachable desktop_de w
  /\ result (availableLanguages w) = ["en"; "es"; "fr"].
Proof.
  cbn zeta.
  assert (Hw : reachable desktop_de
                 (world (setCurrentLanguage desktop_de "es"
                    (world (constructor desktop_de (pristine no_settings))))))
    by apply reachable_setCurrentLanguage, reachable_constructor.
  split; [exact Hw |].
  destruct (availableLanguages_constant desktop_de _ Hw) as (H & _).
  exact H.
Defined.

(** ** No retries, no discovery *)

Lemma localeQueries_app (es es' : list Effect) :
  localeQueries (es ++ es') = localeQueries es + localeQueries es'.
Proof. unfold localeQueries. now rewrite List.filter_app, length_app. Qed.

Lemma loadLanguage_bounded (P : Platform) (language : string) (w : World) :
  let r := loadLanguage P language w in
  length (loadAttempts (effects r)) <= 3
  /\ localeQueries (effects r) <= 1
  /\ (forall p : string, In p (loadAttempts (effects r)) ->
        p = resourcePath language
        \/ p = resourcePath (Qt.left 2 (localeName P))
        \/ p = resourcePath "en").
Proof.
  cbn zeta. loadLanguage_cases P language;
    (split; [simpl; lia | split; [unfold localeQueries; simpl; lia |]]);
    simpl; intros p Hp;
    repeat (destruct Hp as [<- | Hp]; [auto |]); destruct Hp.
Qed.

(** One call of [setCurrentLanguage], in any state, tries at most three
    resources and asks for the locale at most once; every resource it
    tries is the one of the request, of the locale's two-letter prefix
    or of English; and a request that is in the list of available
    languages is the only kind that makes it try any. *)
Theorem setCurrentLanguage_attempts_bounded
    (P : Platform) (w : World) (language : string) :
  let r := setCurrentLanguage P language w in
  length (loadAttempts (effects r)) <= 3
  /\ localeQueries (effects r) <= 1
  /\ (forall p : string, In p (loadAttempts (effects r)) ->
        In language (m_availableLanguages w)
        /\ (p = resourcePath language
            \/ p = resourcePath (Qt.left 2 (localeName P))
            \/ p = resourcePath "en")).
Proof.
  cbn zeta.
  destruct (setCurrentLanguage_paths P language w)
    as [H | [[H1 H2] | [(H1 & H2 & H3) | Ha]]].
  - rewrite setCurrentLanguage_empty by assumption.
    split; [simpl; lia | split; [unfold localeQueries; simpl; lia | intros p []]].
  - rewrite setCurrentLanguage_unsupported by assumption.
    split; [simpl; lia | split; [unfold localeQueries; simpl; lia | intros p []]].
  - rewrite setCurrentLanguage_already_current by assumption.
    split; [simpl; lia | split; [unfold localeQueries; simpl; lia | intros p []]].
  - rewrite (setCurrentLanguage_accepted P language w Ha). cbn [effects].
    destruct (loadLanguage_bounded P language (tentative language w))
      as (Hlen & Hq & Hin). cbn zeta in Hlen, Hq, Hin.
    change (SettingsSetValue "language" language :: ?l)
      with ([SettingsSetValue "language" language] ++ l).
    rewrite !loadAttempts_app, !localeQueries_app.
    change (loadAttempts [SettingsSetValue "language" language]) with (@nil string).
    change (loadAttempts [Emit currentLanguageChanged; Emit languageChanged])
      with (@nil string).
    change (localeQueries [SettingsSetValue "language" language]) with 0.
    change (localeQueries [Emit currentLanguageChanged; Emit languageChanged])
      with 0.
    rewrite app_nil_r. cbn [app].
    split; [exact Hlen |]. split; [lia |].
    intros p Hp. split; [| now apply Hin].
    destruct Ha as (_ & Hc & _). now apply contains_In.
Qed.
